(** * Voice-command actions of [action.py]

    A shallow embedding of the actions defined in [src/action.py]
    (SpeakTime, VolumeControl, RepeatAfterMe, PowerCommand, playPodcast and
    the process-wide pause/resume hooks), followed by the properties proved
    about them.

    Python values are modelled as follows:
    - [int] is [Z];
    - [str] is [string], every character being read as a code point below 256;
    - a [dict] is a [gmap], a [list] is a [list] indexed as Python indexes it;
    - a statement sequence is a computation in the monad [M], which threads
      the module globals and the trace of observable effects, and which may
      end in a raised exception.

    [wait_for_button] (whose call is commented out in [run]) and the keyword
    wiring of [make_actor], which rests on the [actionbase] module, are left
    out. *)

From stdpp Require Import base option list gmap strings pretty.
From Stdlib Require Import ZArith Ascii Lia.

Open Scope Z_scope.

(** ** Exceptions and results *)

Inductive Exn : Type :=
| NameError (name : string)
| KeyError (key : string)
| IndexError
| TypeError
| ValueError
| CalledProcessError (returncode : Z).

Inductive Result (A : Type) : Type :=
| Ok (a : A)
| Raise (e : Exn).
Arguments Ok {A} a.
Arguments Raise {A} e.

#[global] Instance Result_ret : MRet Result := fun A a => Ok a.
#[global] Instance Result_bind : MBind Result := fun A B f r =>
  match r with
  | Ok a => f a
  | Raise e => Raise e
  end.

(** ** Python built-ins on strings and lists *)

Module Py.

(** [l[i]]: a negative index counts from the end, an index out of range
    raises IndexError. *)
Definition getitem {A : Type} (l : list A) (i : Z) : Result A :=
  let n := Z.of_nat (List.length l) in
  let j := if i <? 0 then i + n else i in
  if (0 <=? j) && (j <? n)
  then match l !! Z.to_nat j with
       | Some x => Ok x
       | None => Raise IndexError
       end
  else Raise IndexError.

(** [s] without its prefix [p], when [s] starts with [p]. *)
Fixpoint strip_prefix (p s : string) : option string :=
  match p with
  | EmptyString => Some s
  | String a p' =>
      match s with
      | EmptyString => None
      | String b s' => if Ascii.eqb a b then strip_prefix p' s' else None
      end
  end.

(** [sub in s] *)
Fixpoint contains (sub s : string) : bool :=
  match strip_prefix sub s with
  | Some _ => true
  | None =>
      match s with
      | EmptyString => false
      | String _ s' => contains sub s'
      end
  end.

(** [s.replace(old, new, 1)]: the leftmost occurrence only. *)
Fixpoint replace1 (old new s : string) : string :=
  match strip_prefix old s with
  | Some rest => new +:+ rest
  | None =>
      match s with
      | EmptyString => EmptyString
      | String c s' => String c (replace1 old new s')
      end
  end.

(** [c.lower()] on code points below 256: A-Z, and the Latin-1 capitals
    except the multiplication sign. *)
Definition lower_char (c : ascii) : ascii :=
  let n := N_of_ascii c in
  if ((65 <=? n) && (n <=? 90))%N then ascii_of_N (n + 32)
  else if ((192 <=? n) && (n <=? 222) && negb (n =? 215))%N
       then ascii_of_N (n + 32)
  else c.

Fixpoint lower (s : string) : string :=
  match s with
  | EmptyString => EmptyString
  | String c s' => String (lower_char c) (lower s')
  end.

(** [c.isspace()] on code points below 256. *)
Definition isspace (c : ascii) : bool :=
  let n := N_of_ascii c in
  (((9 <=? n) && (n <=? 13)) || ((28 <=? n) && (n <=? 32))
   || (n =? 133) || (n =? 160))%N.

Fixpoint lstrip (s : string) : string :=
  match s with
  | EmptyString => EmptyString
  | String c s' => if isspace c then lstrip s' else s
  end.

Fixpoint rstrip (s : string) : string :=
  match s with
  | EmptyString => EmptyString
  | String c s' =>
      match rstrip s' with
      | EmptyString => if isspace c then EmptyString else String c EmptyString
      | r => String c r
      end
  end.

(** [s.strip()] *)
Definition strip (s : string) : string := rstrip (lstrip s).

Definition digit_value (c : ascii) : option Z :=
  let n := N_of_ascii c in
  if ((48 <=? n) && (n <=? 57))%N then Some (Z.of_N (n - 48)) else None.

(** The digits of an integer literal: at least one digit, a single
    underscore allowed between two digits. *)
Fixpoint int_digits (s : string) (acc : Z) (after_digit : bool) : option Z :=
  match s with
  | EmptyString => if after_digit then Some acc else None
  | String c s' =>
      match digit_value c with
      | Some d => int_digits s' (10 * acc + d) true
      | None =>
          if Ascii.eqb c "_" && after_digit then int_digits s' acc false
          else None
      end
  end.

(** [int(s)]: surrounding white space and a sign are accepted, anything
    else than a decimal literal raises ValueError. *)
Definition int (s : string) : Result Z :=
  let parsed :=
    match strip s with
    | String "+" r => int_digits r 0 false
    | String "-" r => Z.opp <$> int_digits r 0 false
    | r => int_digits r 0 false
    end in
  match parsed with
  | Some z => Ok z
  | None => Raise ValueError
  end.

(** [str(n)] and the [%d] conversion. *)
Definition str (n : Z) : string := pretty n.

(** The double-quote character. *)
Definition dquote : string := String (ascii_of_N 34) EmptyString.

End Py.

(** ** SpeakTime *)

(** The two fields of a [datetime] that [to_str] reads. *)
Record datetime : Type := { hour : Z; minute : Z }.

Module SpeakTime.

Definition HRS_TEXT : list string :=
  ["midnight"; "one"; "two"; "three"; "four"; "five"; "six";
   "seven"; "eight"; "nine"; "ten"; "eleven"; "twelve"].

Definition MINS_TEXT : list string :=
  ["five"; "ten"; "quarter"; "twenty"; "twenty-five"; "half"].

(** [to_str]: Convert a datetime to a human-readable string. *)
Definition to_str (dt : datetime) : Result string :=
  let hour := hour dt in
  let minute := minute dt in
  let minute_rounded := (minute + 2) `div` 5 in
  let minute_is_inverted := minute_rounded >? 6 in
  let minute_rounded :=
    if minute_is_inverted then 12 - minute_rounded else minute_rounded in
  let hour := if minute_is_inverted then (hour + 1) `mod` 24 else hour in
  let hour := if hour >? 12 then hour - 12 else hour in
  if minute_rounded =? 0 then
    if hour =? 0 then Ok "It is midnight."
    else
      h ← Py.getitem HRS_TEXT hour;
      Ok ("It is " +:+ h +:+ " o'clock.")
  else if minute_is_inverted then
    m ← Py.getitem MINS_TEXT (minute_rounded - 1);
    h ← Py.getitem HRS_TEXT hour;
    Ok ("It is " +:+ m +:+ " to " +:+ h +:+ ".")
  else
    m ← Py.getitem MINS_TEXT (minute_rounded - 1);
    h ← Py.getitem HRS_TEXT hour;
    Ok ("It is " +:+ m +:+ " past " +:+ h +:+ ".").

End SpeakTime.

(** ** Observable effects, module globals and the statement monad *)

Inductive LogLevel : Type := INFO | ERROR | EXCEPTION.

(** Calls on the media player held in the global [podcastPlayer]. *)
Inductive PlayerCall : Type :=
| SetMedia (mrl : option string)
| Play
| Pause
| Stop
| GetState.

Inductive Event : Type :=
| Say (text : string)
| Log (level : LogLevel) (msg : string)
| Subprocess (command : string)
| Parse (url : string)
| MediaNew (mrl : option string)
| Player (call : PlayerCall)
| Sleep (seconds : Z).

(** The object bound to [podcastPlayer] by [playPodcast.__init__]. *)
Variant MediaPlayer : Type := media_player_new.

(** The module globals that the code assigns ([None] = the name is not
    bound), and the effects observed so far, oldest first.
    [podcast_url] holds Python's [None] or a string once it is bound. *)
Record World : Type := {
  podcastPlayer : option MediaPlayer;
  podcastState : option string;
  podcast_url : option (option string);
  trace : list Event
}.

(** What the collaborators outside the module answer during one call. *)
Record Link : Type := { href : string }.
Record Entry : Type := { links : list Link }.
Record Env : Type := {
  now : datetime;                       (* datetime.datetime.now() *)
  shell : string → Z * string;          (* exit status and stdout of a command *)
  parse : string → list Entry;          (* feedparser.parse(url).entries *)
  draw : Z;                             (* the random source *)
  engine_state : Z                      (* podcastPlayer.get_state() *)
}.

Definition M (A : Type) : Type := World → Result A * World.

#[global] Instance M_ret : MRet M := fun A a w => (Ok a, w).
#[global] Instance M_bind : MBind M := fun A B f m w =>
  match m w with
  | (Ok a, w') => f a w'
  | (Raise e, w') => (Raise e, w')
  end.

Definition raise {A : Type} (e : Exn) : M A := fun w => (Raise e, w).

Definition lift {A : Type} (r : Result A) : M A := fun w => (r, w).

(** [try: body except ...: handler]; [handler e = None] when no except
    clause matches [e]. *)
Definition try_except {A : Type} (body : M A) (handler : Exn → option (M A))
  : M A := fun w =>
  match body w with
  | (Ok a, w') => (Ok a, w')
  | (Raise e, w') =>
      match handler e with
      | Some h => h w'
      | None => (Raise e, w')
      end
  end.

Definition get_world : M World := fun w => (Ok w, w).

Definition put_world (w : World) : M unit := fun _ => (Ok tt, w).

(** The world after one more observable effect. *)
Definition observe (e : Event) (w : World) : World :=
  {| podcastPlayer := podcastPlayer w; podcastState := podcastState w;
     podcast_url := podcast_url w; trace := trace w ++ [e] |}.

Definition emit (e : Event) : M unit :=
  w ← get_world;
  put_world (observe e w).

Definition say (text : string) : M unit := emit (Say text).

Definition logging (level : LogLevel) (msg : string) : M unit :=
  emit (Log level msg).

(** [subprocess.check_output(cmd, shell=True)] *)
Definition check_output (env : Env) (cmd : string) : M string :=
  emit (Subprocess cmd);;
  let '(returncode, output) := shell env cmd in
  if returncode =? 0 then mret output
  else raise (CalledProcessError returncode).

(** [subprocess.call(cmd, shell=True)]: the exit status is the result. *)
Definition call (env : Env) (cmd : string) : M Z :=
  emit (Subprocess cmd);;
  mret (shell env cmd).1.

(** [random.randint(a, b)]: some [n] with [a <= n <= b]. *)
Definition randint (env : Env) (a b : Z) : M Z :=
  if b <? a then raise ValueError
  else mret (a + draw env `mod` (b - a + 1)).

(** ** The simple actions *)

(** Every action offers [run(voice_command)]. *)
Class Action (A : Type) : Type := run : Env → A → string → M unit.

Module SpeakAction.

Record t : Type := { words : string }.

Definition run (env : Env) (self : t) (voice_command : string) : M unit :=
  say (words self).

End SpeakAction.

Definition SpeakTime_run (env : Env) (voice_command : string) : M unit :=
  time_str ← lift (SpeakTime.to_str (now env));
  say time_str.

Module VolumeControl.

Record t : Type := { change : Z }.

Definition GET_VOLUME : string :=
  "amixer get Master | grep " +:+ Py.dquote +:+ "Front Left:" +:+ Py.dquote
  +:+ " | sed " +:+ Py.dquote +:+ "s/.*\[\([0-9]\+\)%\].*/\1/" +:+ Py.dquote.

(** [SET_VOLUME % vol] *)
Definition SET_VOLUME (vol : Z) : string :=
  "amixer -q set Master " +:+ Py.str vol +:+ "%".

Definition run (env : Env) (self : t) (voice_command : string) : M unit :=
  output ← check_output env GET_VOLUME;
  let res := Py.strip output in
  try_except
    (logging INFO ("volume: " +:+ res);;
     n ← lift (Py.int res);
     let vol := n + change self in
     let vol := Z.max 0 (Z.min 100 vol) in
     call env (SET_VOLUME vol);;
     say ("Volume at " +:+ Py.str vol +:+ " %."))
    (fun e =>
       match e with
       | ValueError | CalledProcessError _ =>
           Some (logging EXCEPTION "Error using amixer to adjust volume.")
       | _ => None
       end).

End VolumeControl.

Module RepeatAfterMe.

Record t : Type := { keyword : string }.

Definition run (env : Env) (self : t) (voice_command : string) : M unit :=
  let to_repeat := Py.replace1 (keyword self) "" voice_command in
  say to_repeat.

End RepeatAfterMe.

Module PowerCommand.

Record t : Type := { command : string }.

Definition run (env : Env) (self : t) (voice_command : string) : M unit :=
  if String.eqb (command self) "shutdown" then
    say "Shutting down, goodbye";;
    call env "sudo shutdown now";;
    mret tt
  else if String.eqb (command self) "reboot" then
    say "Rebooting";;
    call env "sudo shutdown -r now";;
    mret tt
  else
    logging ERROR "Error identifying power command.";;
    say "Sorry I didn't identify that command".

End PowerCommand.

(** ** playPodcast *)

Module playPodcast.

Record t : Type := { keyword : string }.

Definition set_state (new_state : string) : M unit :=
  logging INFO ("setting podcast state " +:+ new_state);;
  w ← get_world;
  put_world {| podcastPlayer := podcastPlayer w; podcastState := Some new_state;
               podcast_url := podcast_url w; trace := trace w |}.

Definition get_state : M string :=
  w ← get_world;
  match podcastState w with
  | Some s => mret s
  | None => raise (NameError "podcastState")
  end.

(** [global podcast_url; podcast_url = v] *)
Definition set_podcast_url (v : option string) : M unit :=
  w ← get_world;
  put_world {| podcastPlayer := podcastPlayer w; podcastState := podcastState w;
               podcast_url := Some v; trace := trace w |}.

Definition get_podcast_url : M (option string) :=
  w ← get_world;
  match podcast_url w with
  | Some v => mret v
  | None => raise (NameError "podcast_url")
  end.

(** A method call on the global [podcastPlayer]. *)
Definition player (c : PlayerCall) : M unit :=
  w ← get_world;
  match podcastPlayer w with
  | Some _ => emit (Player c)
  | None => raise (NameError "podcastPlayer")
  end.

(** [__init__]: binds the player and starts in state "stopped". *)
Definition init (keyword : string) : M t :=
  w ← get_world;
  put_world {| podcastPlayer := Some media_player_new;
               podcastState := podcastState w;
               podcast_url := podcast_url w; trace := trace w |};;
  set_state "stopped";;
  mret {| keyword := keyword |}.

Definition urls : gmap string string :=
  {[ "friday night comedy" :=
       "http://www.bbc.co.uk/programmes/p02pc9pj/episodes/downloads.rss";
     "tech news today" := "http://feeds.twit.tv/tnt.xml";
     "twig" := "http://feeds.twit.tv/twig.xml";
     "this week in tech" := "http://feeds.twit.tv/twit.xml";
     "theory of everything" := "https://www.npr.org/rss/podcast.php?id=510061";
     "this american life" := "http://feed.thisamericanlife.org/talpodcast";
     "android authority" := "http://androidauthority.libsyn.com/rss" ]}.

Definition get_url (podcast_name : string) : M string :=
  match urls !! podcast_name with
  | Some url => mret url
  | None => raise (KeyError podcast_name)
  end.

Definition stop : M unit :=
  player Stop;;
  set_state "stopped".

(** The loop over the links of the chosen entry: the first href that
    contains ".mp3" is stored in [podcast_url]. *)
Fixpoint for_link (ls : list Link) : M unit :=
  match ls with
  | [] => mret tt
  | link :: rest =>
      let href := href link in
      if Py.contains ".mp3" href then set_podcast_url (Some href)
      else for_link rest
  end.

(** ["literal" + v] where [v] may be Python's [None]. *)
Definition concat (literal : string) (v : option string) : M string :=
  match v with
  | Some s => mret (literal +:+ s)
  | None => raise TypeError
  end.

(** The engine-state codes that count as playing. *)
Definition playing : gset Z := {[ 1; 2; 3; 4 ]}.

(** Lines 313 to 355 of [run]: everything after the stop, pause and
    resume commands. [podcast] is a name that no statement of the module
    binds, so evaluating it raises NameError. *)
Definition start (env : Env) (random_podcast : bool) (voice_command : string)
  : M unit :=
  set_state "stopped";;
  set_podcast_url None;;
  logging INFO ("looking for podcast: " +:+ voice_command);;
  found ← try_except (feedUrl ← get_url voice_command; mret (Some feedUrl))
            (fun e =>
               match e with
               | KeyError _ => Some (say "Sorry podcast not found";; mret None)
               | _ => None
               end);
  match found with
  | None => mret tt
  | Some feedUrl =>
      logging INFO ("podcast feed: " +:+ feedUrl);;
      emit (Parse feedUrl);;
      let entries := parse env feedUrl in
      podcast_number ←
        (if random_podcast then
           let number_of_podcasts := Z.of_nat (List.length entries) in
           logging INFO ("podcast feed length: " +:+ Py.str number_of_podcasts);;
           randint env 0 number_of_podcasts
         else mret 0);
      entry ← lift (Py.getitem entries podcast_number);
      for_link (links entry);;
      url ← get_podcast_url;
      msg ← concat "podcast url: " url;
      logging INFO msg;;
      emit (MediaNew url);;
      player (SetMedia url);;
      player Play;;
      emit (Sleep 1);;
      player GetState;;
      let state := engine_state env in
      set_state "starting";;
      (if bool_decide (state ∉ playing) then
         msg ← concat "error playing podcast " url;
         logging INFO msg;;
         podcast ← raise (A:=string) (NameError "podcast");
         say ("Sorry error playing " +:+ podcast);;
         set_state "stopped"
       else mret tt);;
      set_state "playing"
  end.

Definition run (env : Env) (self : t) (voice_command : string) : M unit :=
  let voice_command :=
    Py.strip (Py.replace1 (keyword self) "" (Py.lower voice_command)) in
  logging INFO ("podcast command:" +:+ voice_command);;
  if String.eqb voice_command "stop" || String.eqb voice_command "off" then
    stop
  else if String.eqb voice_command "pause" then
    logging INFO "podcast pausing";;
    try_except (set_state "paused")
      (fun e =>
         match e with
         | NameError _ => Some (logging INFO "error pausing")
         | _ => None
         end)
  else if String.eqb voice_command "resume" then
    logging INFO "podcast resuming";;
    try_except (player Play;; set_state "playing")
      (fun e =>
         match e with
         | NameError _ => Some (logging INFO "error resuming")
         | _ => None
         end)
  else if Py.contains "random" voice_command then
    start env true (Py.strip (Py.replace1 "random" "" voice_command))
  else
    start env false voice_command.

(** The process-wide hooks. *)
Definition pause : M unit :=
  podcastState ← get_state;
  logging INFO ("pausing podcast state is " +:+ podcastState);;
  if String.eqb podcastState "playing" then
    try_except (player Pause)
      (fun e =>
         match e with
         | NameError _ => Some (mret tt)
         | _ => None
         end)
  else mret tt.

Definition resume : M unit :=
  podcastState ← get_state;
  logging INFO ("resume podcast state is " +:+ podcastState);;
  if String.eqb podcastState "playing" then player Play
  else mret tt.

End playPodcast.

Definition pauseActors : M unit := playPodcast.pause.
Definition resumeActors : M unit := playPodcast.resume.

(** ** Observations on a trace *)

(** The texts spoken, in order. *)
Definition said (tr : list Event) : list string :=
  omap (fun e => match e with Say text => Some text | _ => None end) tr.

(** The calls made on the media player, in order. *)
Definition player_calls (tr : list Event) : list PlayerCall :=
  omap (fun e => match e with Player c => Some c | _ => None end) tr.

(** The shell commands executed, in order. *)
Definition commands (tr : list Event) : list string :=
  omap (fun e => match e with Subprocess c => Some c | _ => None end) tr.

(** The messages logged at a level, in order. *)
Definition logged (level : LogLevel) (tr : list Event) : list string :=
  omap (fun e =>
          match e with
          | Log l msg =>
              match l, level with
              | INFO, INFO | ERROR, ERROR | EXCEPTION, EXCEPTION => Some msg
              | _, _ => None
              end
          | _ => None
          end) tr.

(** The world of a freshly imported module: no global bound yet. *)
Definition fresh : World :=
  {| podcastPlayer := None; podcastState := None; podcast_url := None;
     trace := [] |}.

(** The world once [make_actor] has built [playPodcast(say, 'podcast')],
    and that action. *)
Definition booted : World := (playPodcast.init "podcast" fresh).2.
Definition podcast_action : playPodcast.t := {| playPodcast.keyword := "podcast" |}.

(** Surroundings in which every command exits with [status] and prints
    [output], every feed holds [entries], the random source yields [d] and
    the engine reports [code]. *)
Definition surroundings (status : Z) (output : string) (entries : list Entry)
    (d code : Z) : Env :=
  {| now := {| hour := 0; minute := 0 |}; shell := fun _ => (status, output);
     parse := fun _ => entries; draw := d; engine_state := code |}.

#[global] Instance SpeakAction_Action : Action SpeakAction.t := SpeakAction.run.
#[global] Instance VolumeControl_Action : Action VolumeControl.t :=
  VolumeControl.run.
#[global] Instance RepeatAfterMe_Action : Action RepeatAfterMe.t :=
  RepeatAfterMe.run.
#[global] Instance PowerCommand_Action : Action PowerCommand.t :=
  PowerCommand.run.
#[global] Instance playPodcast_Action : Action playPodcast.t := playPodcast.run.

(** ** SpeakShellCommandOutput *)

Module SpeakShellCommandOutput.

Record t : Type := { shell_command : string; failure_text : string }.

(** [if output:] and [elif self.failure_text:] test for a non-empty string. *)
Definition run (env : Env) (self : t) (voice_command : string) : M unit :=
  output ← check_output env (shell_command self);
  let output := Py.strip output in
  if negb (String.eqb output "") then say output
  else if negb (String.eqb (failure_text self) "") then say (failure_text self)
  else mret tt.

End SpeakShellCommandOutput.

#[global] Instance SpeakShellCommandOutput_Action :
  Action SpeakShellCommandOutput.t := SpeakShellCommandOutput.run.

(** ** Notions used to state the properties *)

(** The globals [podcastPlayer] and [podcastState] are both bound, as they
    are once [playPodcast.__init__] has run. *)
Definition ready (w : World) : Prop :=
  is_Some (podcastPlayer w) ∧ is_Some (podcastState w).

(** [w'] has the globals of [w]; only the trace may differ. *)
Definition same_globals (w w' : World) : Prop :=
  podcastPlayer w' = podcastPlayer w
  ∧ podcastState w' = podcastState w
  ∧ podcast_url w' = podcast_url w.

(** The command that [playPodcast.run] acts on: the voice command in lower
    case, the first occurrence of the keyword removed, stripped. *)
Definition command_of (self : playPodcast.t) (voice_command : string)
  : string :=
  Py.strip (Py.replace1 (playPodcast.keyword self) "" (Py.lower voice_command)).

(** The words that [playPodcast.run] takes as commands of their own. *)
Definition controls : list string := ["stop"; "off"; "pause"; "resume"].

(** Whether a command asks for a random episode, and the podcast name it
    gives: the command without its first "random", stripped. *)
Definition random_mode (command : string) : bool :=
  Py.contains "random" command.
Definition podcast_name (command : string) : string :=
  if random_mode command
  then Py.strip (Py.replace1 "random" "" command) else command.

(** The number of the episode that [run] looks up: 0 in sequence mode, the
    result of [random.randint(0, len(entries))] in random mode. *)
Definition episode_number (env : Env) (random_podcast : bool)
    (entries : list Entry) : Z :=
  if random_podcast
  then draw env `mod` (Z.of_nat (List.length entries) + 1) else 0.

(** [l] is the first link of [e] whose href contains ".mp3". *)
Definition first_mp3 (e : Entry) (l : Link) : Prop :=
  ∃ before after,
    links e = before ++ l :: after
    ∧ Forall (fun x => Py.contains ".mp3" (href x) = false) before
    ∧ Py.contains ".mp3" (href l) = true.


(** The rounding rule of [to_str], read off the specification: the number
    of five-minute units, whether it counts down to the next hour, and the
    hour that is named. *)
Definition rounded (m : Z) : Z := (m + 2) `div` 5.
Definition inverted (m : Z) : bool := 6 <? rounded m.
Definition units (m : Z) : Z :=
  if inverted m then 12 - rounded m else rounded m.
Definition named_hour (h m : Z) : Z :=
  let h' := if inverted m then (h + 1) `mod` 24 else h in
  if 12 <? h' then h' - 12 else h'.

(** [pre] is what precedes the leftmost occurrence of [old] in [s], and
    [suf] what follows it. *)
Definition leftmost (old s pre suf : string) : Prop :=
  s = pre +:+ old +:+ suf
  ∧ ∀ pre' suf', s = pre' +:+ old +:+ suf' →
                 (String.length pre ≤ String.length pre')%nat.

(** * Properties *)

(** Splits the observations on a trace that is given event by event. *)
Ltac observations :=
  simpl; unfold said, player_calls, commands, logged;
  rewrite ?omap_app; simpl; rewrite ?app_nil_r.


(** ** Indexing *)

Lemma getitem_in_range {A : Type} (l : list A) (i : Z) :
  0 <= i < Z.of_nat (List.length l) →
  ∃ x, l !! Z.to_nat i = Some x ∧ Py.getitem l i = Ok x.
Proof.
  intros Hi. unfold Py.getitem.
  destruct (Z.ltb_spec i 0) as [?|_]; [lia|].
  destruct (Z.leb_spec 0 i); [|lia].
  destruct (Z.ltb_spec i (Z.of_nat (List.length l))); [|lia]. simpl.
  destruct (lookup_lt_is_Some_2 l (Z.to_nat i)) as [x Hx]; [lia|].
  exists x. by rewrite Hx.
Qed.

Lemma getitem_past_end {A : Type} (l : list A) (i : Z) :
  Z.of_nat (List.length l) <= i → Py.getitem l i = Raise IndexError.
Proof.
  intros Hi. unfold Py.getitem.
  destruct (Z.ltb_spec i 0) as [?|_]; [lia|].
  destruct (Z.ltb_spec i (Z.of_nat (List.length l))); [lia|].
  by rewrite andb_false_r.
Qed.

(** ** SpeakTime.to_str *)

Section to_str.

Import SpeakTime.

Lemma hour_word_not_midnight (hw : string) :
  hw ∈ HRS_TEXT → "It is " +:+ hw +:+ " o'clock." ≠ "It is midnight.".
Proof.
  unfold HRS_TEXT. intros Hin.
  repeat (apply elem_of_cons in Hin as [->|Hin]); try discriminate.
  by apply elem_of_nil in Hin.
Qed.

Lemma unit_word_not_midnight (u rest : string) :
  u ∈ MINS_TEXT → "It is " +:+ u +:+ rest ≠ "It is midnight.".
Proof.
  unfold MINS_TEXT. intros Hin.
  repeat (apply elem_of_cons in Hin as [->|Hin]); try discriminate.
  by apply elem_of_nil in Hin.
Qed.

Lemma rounded_range (m : Z) : 0 <= m <= 59 → 0 <= rounded m <= 12.
Proof.
  intros Hm. unfold rounded. split.
  - apply Z.div_pos; lia.
  - apply Z.lt_succ_r, Z.div_lt_upper_bound; lia.
Qed.

Lemma units_range (m : Z) : 0 <= m <= 59 → 0 <= units m <= 6.
Proof.
  intros Hm. pose proof (rounded_range m Hm). unfold units, inverted.
  destruct (Z.ltb_spec 6 (rounded m)); lia.
Qed.

Lemma named_hour_range (h m : Z) : 0 <= h <= 23 → 0 <= named_hour h m <= 12.
Proof.
  intros Hh. unfold named_hour.
  pose proof (Z.mod_pos_bound (h + 1) 24 eq_refl).
  destruct (inverted m);
    match goal with |- context [12 <? ?x] => destruct (Z.ltb_spec 12 x) end;
    lia.
Qed.

(** C2, as amended: for hours 0-23 and minutes 0-59, [to_str] returns a
    phrase fixed by the rounding rule. It is "It is midnight." exactly when
    the named hour and the rounded minute are both 0, "It is <hour>
    o'clock." when only the rounded minute is 0, "It is <unit> to <hour>."
    when the minute was rounded towards the next hour and "It is <unit>
    past <hour>." otherwise. 4:58 gives "It is five o'clock." (4:55 gives
    "It is five to five."), 0:00 gives "It is midnight." and 6:00 gives
    "It is six o'clock.". *)
Theorem to_str_rounding_rule (h m : Z) :
  0 <= h <= 23 → 0 <= m <= 59 →
  (∃ s, to_str {| hour := h; minute := m |} = Ok s
     ∧ (s = "It is midnight." ↔ named_hour h m = 0 ∧ units m = 0)
     ∧ (units m = 0 → named_hour h m ≠ 0 →
        ∃ hw, HRS_TEXT !! Z.to_nat (named_hour h m) = Some hw
              ∧ s = "It is " +:+ hw +:+ " o'clock.")
     ∧ (units m ≠ 0 →
        ∃ u hw, MINS_TEXT !! Z.to_nat (units m - 1) = Some u
                ∧ HRS_TEXT !! Z.to_nat (named_hour h m) = Some hw
                ∧ s = "It is " +:+ u
                      +:+ (if inverted m then " to " else " past ")
                      +:+ hw +:+ "."))
  ∧ to_str {| hour := 4; minute := 58 |} = Ok "It is five o'clock."
  ∧ to_str {| hour := 4; minute := 55 |} = Ok "It is five to five."
  ∧ to_str {| hour := 0; minute := 0 |} = Ok "It is midnight."
  ∧ to_str {| hour := 6; minute := 0 |} = Ok "It is six o'clock.".
Proof.
  intros Hh Hm. split; [|by repeat split].
  pose proof (units_range m Hm) as Hu.
  pose proof (named_hour_range h m Hh) as Hn.
  destruct (getitem_in_range HRS_TEXT (named_hour h m)) as (hw & Hhw & Ghw);
    [simpl; lia|].
  assert (to_str {| hour := h; minute := m |} =
    if units m =? 0 then
      if named_hour h m =? 0 then Ok "It is midnight."
      else h' ← Py.getitem HRS_TEXT (named_hour h m);
           Ok ("It is " +:+ h' +:+ " o'clock.")
    else
      u ← Py.getitem MINS_TEXT (units m - 1);
      h' ← Py.getitem HRS_TEXT (named_hour h m);
      Ok ("It is " +:+ u +:+ (if inverted m then " to " else " past ")
          +:+ h' +:+ ".")) as ->.
  { unfold to_str, units, named_hour, inverted, rounded. simpl.
    rewrite !Z.gtb_ltb.
    by destruct (6 <? (m + 2) `div` 5). }
  rewrite Ghw.
  destruct (Z.eqb_spec (units m) 0) as [Hu0|Hu0].
  - destruct (Z.eqb_spec (named_hour h m) 0) as [Hn0|Hn0].
    + eexists; split_and!; [done|done|tauto|tauto].
    + eexists; split_and!; [done| |by exists hw|tauto].
      split; [|tauto]. intros Heq. exfalso. revert Heq.
      apply hour_word_not_midnight. by eapply list_elem_of_lookup_2.
  - destruct (getitem_in_range MINS_TEXT (units m - 1)) as (u & Hlu & Gu);
      [simpl; lia|].
    rewrite Gu. eexists; split_and!; [done| |tauto|by exists u, hw].
    split; [|tauto]. intros Heq. exfalso. revert Heq.
    apply unit_word_not_midnight. by eapply list_elem_of_lookup_2.
Qed.

(** C2, as stated, fails at 4:58: the phrase is not "It is five to five."
    but "It is five o'clock.". *)
Lemma to_str_4_58_is_five_oclock :
  SpeakTime.to_str {| hour := 4; minute := 58 |} ≠ Ok "It is five to five."
  ∧ SpeakTime.to_str {| hour := 4; minute := 58 |} = Ok "It is five o'clock.".
Proof. split; [discriminate | reflexivity]. Qed.

Lemma to_str_rounding_rule_witness :
  (0 <= 23 <= 23 ∧ 0 <= 58 <= 59)
  ∧ ∃ s, to_str {| hour := 23; minute := 58 |} = Ok s
         ∧ (s = "It is midnight." ↔ named_hour 23 58 = 0 ∧ units 58 = 0).
Proof.
  split; [lia|].
  destruct (to_str_rounding_rule 23 58) as [(s & Hs & Hmid & _) _];
    [lia | lia |].
  by exists s.
Defined.

End to_str.

(** ** Traces *)

Lemma said_observe (e : Event) (w : World) :
  said (trace (observe e w))
  = said (trace w) ++ match e with Say text => [text] | _ => [] end.
Proof. unfold said. simpl. rewrite omap_app. by destruct e. Qed.

Lemma player_calls_observe (e : Event) (w : World) :
  player_calls (trace (observe e w))
  = player_calls (trace w) ++ match e with Player c => [c] | _ => [] end.
Proof. unfold player_calls. simpl. rewrite omap_app. by destruct e. Qed.

Lemma commands_observe (e : Event) (w : World) :
  commands (trace (observe e w))
  = commands (trace w) ++ match e with Subprocess c => [c] | _ => [] end.
Proof. unfold commands. simpl. rewrite omap_app. by destruct e. Qed.

Lemma logged_error_observe (e : Event) (w : World) :
  logged ERROR (trace (observe e w))
  = logged ERROR (trace w)
    ++ match e with Log ERROR msg => [msg] | _ => [] end.
Proof.
  unfold logged. simpl. rewrite omap_app. destruct e as [|[]| | | | |]; done.
Qed.

(** ** PowerCommand.run *)

(** C9: a PowerCommand whose command is neither "shutdown" nor "reboot"
    logs one error, says "Sorry I didn't identify that command" once,
    runs no shell command and returns normally. *)
Theorem PowerCommand_unidentified_command
    (env : Env) (self : PowerCommand.t) (voice_command : string) (w : World) :
  PowerCommand.command self ≠ "shutdown" →
  PowerCommand.command self ≠ "reboot" →
  ∃ w', run env self voice_command w = (Ok tt, w')
    ∧ said (trace w') = said (trace w) ++ ["Sorry I didn't identify that command"]
    ∧ logged ERROR (trace w')
      = logged ERROR (trace w) ++ ["Error identifying power command."]
    ∧ commands (trace w') = commands (trace w).
Proof.
  intros Hs Hr. unfold run, PowerCommand_Action, PowerCommand.run.
  apply String.eqb_neq in Hs as ->. apply String.eqb_neq in Hr as ->.
  eexists. split; [reflexivity|].
  rewrite !said_observe, !logged_error_observe, !commands_observe.
  simpl. by rewrite !app_nil_r.
Qed.

Lemma PowerCommand_unidentified_command_witness :
  ∃ w', run (A:=PowerCommand.t)
          {| now := {| hour := 0; minute := 0 |}; shell := fun _ => (0, "");
             parse := fun _ => []; draw := 0; engine_state := 0 |}
          {| PowerCommand.command := "halt" |} "power off" fresh = (Ok tt, w')
    ∧ said (trace w') = ["Sorry I didn't identify that command"]
    ∧ commands (trace w') = [].
Proof.
  destruct (PowerCommand_unidentified_command
              {| now := {| hour := 0; minute := 0 |}; shell := fun _ => (0, "");
                 parse := fun _ => []; draw := 0; engine_state := 0 |}
              {| PowerCommand.command := "halt" |} "power off" fresh)
    as (w' & Hrun & Hsaid & _ & Hcmd); [done | done |].
  by exists w'.
Defined.

(** ** str.replace with count 1 *)

Section replace1.

Import Py.

Lemma app_cons (c : ascii) (s t : string) :
  String c s +:+ t = String c (s +:+ t).
Proof. reflexivity. Qed.

Lemma app_empty (t : string) : "" +:+ t = t.
Proof. reflexivity. Qed.

Lemma strip_prefix_Some (p s r : string) :
  strip_prefix p s = Some r ↔ s = p +:+ r.
Proof.
  revert s. induction p as [|a p IH]; intros s; simpl.
  - rewrite app_empty. split; [by intros [= ->] | by intros ->].
  - rewrite app_cons. destruct s as [|b s]; [done|].
    destruct (Ascii.eqb_spec a b) as [->|Hab].
    + rewrite IH. split; [by intros -> | by intros [= ->]].
    + split; [done|]. by intros [= ? ?].
Qed.

Lemma strip_prefix_app (p r : string) : strip_prefix p (p +:+ r) = Some r.
Proof. by apply strip_prefix_Some. Qed.

Lemma replace1_spec (old new s : string) :
  (∃ pre suf, leftmost old s pre suf
              ∧ replace1 old new s = pre +:+ new +:+ suf)
  ∨ ((∀ pre suf, s ≠ pre +:+ old +:+ suf) ∧ replace1 old new s = s).
Proof.
  assert (Hhead : ∀ s rest, strip_prefix old s = Some rest →
            ∃ pre suf, leftmost old s pre suf
                       ∧ new +:+ rest = pre +:+ new +:+ suf).
  { intros s' rest E. exists "", rest. apply strip_prefix_Some in E.
    split; [split; [done | intros; simpl; lia] | done]. }
  assert (Hnohead : ∀ s suf, strip_prefix old s = None → s ≠ old +:+ suf).
  { intros s' suf E ->. by rewrite strip_prefix_app in E. }
  induction s as [|c s IH]; simpl.
  - destruct (strip_prefix old "") as [rest|] eqn:E; [left; by apply Hhead|].
    right. split; [|done]. intros [|c pre] suf Heq; [|done].
    by eapply Hnohead.
  - destruct (strip_prefix old (String c s)) as [rest|] eqn:E;
      [left; by apply Hhead|].
    destruct IH as [(pre & suf & [Heq Hmin] & Hrep)|[Hno Hrep]].
    + left. exists (String c pre), suf. split; [split|].
      * rewrite app_cons. by f_equal.
      * intros [|c' pre'] suf' Heq'.
        -- rewrite app_empty in Heq'. by apply Hnohead in Heq'.
        -- rewrite app_cons in Heq'. injection Heq' as -> Heq'. simpl.
           apply le_n_S. by eapply Hmin.
      * rewrite app_cons. by rewrite Hrep.
    + right. split; [|by rewrite Hrep].
      intros [|c' pre] suf Heq.
      * rewrite app_empty in Heq. by apply Hnohead in Heq.
      * rewrite app_cons in Heq. injection Heq as -> Heq. by eapply Hno.
Qed.

End replace1.

(** ** RepeatAfterMe.run *)

(** C10: RepeatAfterMe.run says exactly one text. When the keyword occurs
    in the command, the text is the command with the leftmost occurrence of
    the keyword cut out, everything before and after it kept as it is;
    when the keyword does not occur, the text is the command itself. *)
Theorem RepeatAfterMe_removes_first_keyword
    (env : Env) (self : RepeatAfterMe.t) (voice_command : string) (w : World) :
  let keyword := RepeatAfterMe.keyword self in
  ∃ to_repeat,
    run env self voice_command w = (Ok tt, observe (Say to_repeat) w)
    ∧ ((∃ pre suf, leftmost keyword voice_command pre suf
                   ∧ to_repeat = pre +:+ suf)
       ∨ ((∀ pre suf, voice_command ≠ pre +:+ keyword +:+ suf)
          ∧ to_repeat = voice_command)).
Proof.
  intros keyword. eexists. split; [reflexivity|].
  destruct (replace1_spec keyword "" voice_command)
    as [(pre & suf & Hleft & Hrep)|[Hno Hrep]].
  - left. exists pre, suf. by split.
  - by right.
Qed.

Lemma RepeatAfterMe_removes_first_keyword_witness :
  ∃ to_repeat,
    run (A:=RepeatAfterMe.t)
      {| now := {| hour := 0; minute := 0 |}; shell := fun _ => (0, "");
         parse := fun _ => []; draw := 0; engine_state := 0 |}
      {| RepeatAfterMe.keyword := "repeat after me" |}
      "Repeat after me repeat after me, repeat after me" fresh
    = (Ok tt, observe (Say to_repeat) fresh)
    ∧ to_repeat = "Repeat after me , repeat after me".
Proof.
  destruct (RepeatAfterMe_removes_first_keyword
              {| now := {| hour := 0; minute := 0 |}; shell := fun _ => (0, "");
                 parse := fun _ => []; draw := 0; engine_state := 0 |}
              {| RepeatAfterMe.keyword := "repeat after me" |}
              "Repeat after me repeat after me, repeat after me" fresh)
    as (to_repeat & Hrun & _).
  exists to_repeat. split; [done|].
  by injection Hrun as <-.
Defined.

(** ** The pause and resume hooks *)

Section hooks.

Import playPodcast.

(** C7: whatever the playback state, the pause hook makes at most one
    player call, a pause, and only in state "playing"; the resume hook
    makes at most one player call, a play, and only in state "playing". In
    states "paused" and "stopped" neither hook calls the player. *)
Theorem hooks_call_player_only_when_playing (w : World) (st : string) :
  podcastState w = Some st →
  ∃ cp cr,
    player_calls (trace (pauseActors w).2) = player_calls (trace w) ++ cp
    ∧ player_calls (trace (resumeActors w).2) = player_calls (trace w) ++ cr
    ∧ (cp = [] ∨ (cp = [Pause] ∧ st = "playing"))
    ∧ (cr = [] ∨ (cr = [Play] ∧ st = "playing"))
    ∧ (st = "paused" ∨ st = "stopped" → cp = [] ∧ cr = []).
Proof.
  intros Hst.
  unfold pauseActors, resumeActors, pause, resume, get_state, player,
    try_except, logging, emit, raise, mbind, M_bind, mret, M_ret, get_world,
    put_world.
  simpl. rewrite Hst.
  destruct (String.eqb_spec st "playing") as [->|Hne].
  - destruct (podcastPlayer w) as [p|] eqn:Hp; simpl; rewrite Hp; simpl.
    + exists [Pause], [Play]. observations.
      split_and!; [done|done|by right|by right|].
      intros [?|?]; discriminate.
    + exists [], []. observations.
      split_and!; [done|done|by left|by left|done].
  - exists [], []. observations.
    split_and!; [done|done|by left|by left|done].
Qed.

Lemma hooks_call_player_only_when_playing_witness :
  ∃ cp cr,
    player_calls (trace (pauseActors (init "podcast" fresh).2).2) = cp
    ∧ player_calls (trace (resumeActors (init "podcast" fresh).2).2) = cr
    ∧ cp = [] ∧ cr = [].
Proof.
  destruct (hooks_call_player_only_when_playing
              (init "podcast" fresh).2 "stopped" eq_refl)
    as (cp & cr & Hp & Hr & _ & _ & Hnone).
  destruct Hnone as [-> ->]; [by right|].
  exists [], []. by rewrite Hp, Hr.
Defined.

End hooks.

(** ** playPodcast.run *)

Section podcast.

Import playPodcast.

Lemma start_unknown (env : Env) (random_podcast : bool) (name : string)
    (w : World) :
  urls !! name = None →
  ∃ w', start env random_podcast name w = (Ok tt, w')
    ∧ said (trace w') = said (trace w) ++ ["Sorry podcast not found"]
    ∧ podcastState w' = Some "stopped"
    ∧ player_calls (trace w') = player_calls (trace w).
Proof.
  intros Hname.
  unfold start, get_url, set_state, set_podcast_url, try_except, say, logging,
    emit, raise, mbind, M_bind, mret, M_ret, get_world, put_world.
  simpl. rewrite Hname. simpl.
  eexists. split; [reflexivity|]. by observations.
Qed.

(** C5: whatever the globals hold before the call, when the command left
    after the keyword is none of stop, off, pause and resume, and the
    name it gives (the word "random" removed) is not a key of the catalog,
    [run] returns normally, says "Sorry podcast not found" once and nothing
    else, leaves the state at "stopped" and makes no player call. *)
Theorem run_unknown_podcast
    (env : Env) (self : playPodcast.t) (voice_command : string) (w : World) :
  let command :=
    Py.strip (Py.replace1 (keyword self) "" (Py.lower voice_command)) in
  let name :=
    if Py.contains "random" command
    then Py.strip (Py.replace1 "random" "" command) else command in
  command ∉ ["stop"; "off"; "pause"; "resume"] →
  urls !! name = None →
  ∃ w', run env self voice_command w = (Ok tt, w')
    ∧ said (trace w') = said (trace w) ++ ["Sorry podcast not found"]
    ∧ podcastState w' = Some "stopped"
    ∧ player_calls (trace w') = player_calls (trace w).
Proof.
  intros command name Hcommand Hname.
  unfold run, playPodcast_Action, playPodcast.run. fold command.
  assert (∀ c, c ∈ ["stop"; "off"; "pause"; "resume"] →
               String.eqb command c = false) as Hneq.
  { intros c Hc. apply String.eqb_neq. by intros <-. }
  rewrite !Hneq by set_solver. simpl.
  unfold mbind at 1, M_bind at 1, logging at 1, emit at 1.
  unfold mbind at 1, M_bind at 1, get_world at 1, put_world at 1.
  subst name.
  set (w1 := observe (Log INFO ("podcast command:" +:+ command)) w).
  assert (said (trace w1) = said (trace w)) as Hsaid1 by by observations.
  assert (player_calls (trace w1) = player_calls (trace w)) as Hcalls1
    by by observations.
  destruct (Py.contains "random" command).
  - destruct (start_unknown env true _ w1 Hname)
      as (w' & Hrun & Hsaid & Hstate & Hcalls).
    exists w'.
    split_and!; [done | by rewrite Hsaid, Hsaid1 | done
                | by rewrite Hcalls, Hcalls1].
  - destruct (start_unknown env false _ w1 Hname)
      as (w' & Hrun & Hsaid & Hstate & Hcalls).
    exists w'.
    split_and!; [done | by rewrite Hsaid, Hsaid1 | done
                | by rewrite Hcalls, Hcalls1].
Qed.

Lemma run_unknown_podcast_witness :
  ∃ w', run (surroundings 0 "" [] 0 0) podcast_action
          "Podcast random unknownshow" booted = (Ok tt, w')
    ∧ said (trace w') = ["Sorry podcast not found"]
    ∧ podcastState w' = Some "stopped"
    ∧ player_calls (trace w') = [].
Proof.
  apply (run_unknown_podcast (surroundings 0 "" [] 0 0) podcast_action
           "Podcast random unknownshow" booted).
  - apply (bool_decide_unpack _). by vm_compute.
  - by vm_compute.
Defined.

(** C1, at a failing input: the feed of "twig" holds one episode with an
    mp3 link and the engine reports code 7 (error) after play. [run] then
    raises NameError for the unbound name [podcast] while building the error
    message: nothing is said and the state stays "starting". With code 3
    (playing) the same call returns normally in state "playing". *)
Theorem run_engine_error_raises_NameError :
  let feed := [ {| links := [ {| href := "http://twit.tv/twig0001.mp3" |} ] |} ] in
  (∃ w', run (surroundings 0 "" feed 0 7) podcast_action "podcast twig" booted
         = (Raise (NameError "podcast"), w')
     ∧ said (trace w') = []
     ∧ podcastState w' = Some "starting")
  ∧ (∃ w', run (surroundings 0 "" feed 0 3) podcast_action "podcast twig" booted
           = (Ok tt, w')
       ∧ said (trace w') = []
       ∧ podcastState w' = Some "playing").
Proof.
  split; eexists; (split; [vm_compute; reflexivity|]); by vm_compute.
Qed.

(** C3, at two failing inputs: for the known podcast "twig", an empty feed
    makes [run] raise IndexError, and an episode whose only link is not an
    mp3 makes it raise TypeError. In both cases nothing is said; the state
    is "stopped". *)
Theorem run_without_playable_link_raises :
  (∃ w', run (surroundings 0 "" [] 0 3) podcast_action "podcast twig" booted
         = (Raise IndexError, w')
     ∧ said (trace w') = []
     ∧ podcastState w' = Some "stopped")
  ∧ (∃ w', run (surroundings 0 ""
                  [ {| links := [ {| href := "http://twit.tv/twig.html" |} ] |} ]
                  0 3) podcast_action "podcast twig" booted
           = (Raise TypeError, w')
       ∧ said (trace w') = []
       ∧ podcastState w' = Some "stopped").
Proof.
  split; eexists; (split; [vm_compute; reflexivity|]); by vm_compute.
Qed.

(** C4, at a failing input: over a feed of one episode,
    [random.randint(0, 1)] can return 1, which is not below the number of
    episodes, and [run] then raises IndexError at the episode lookup. *)
Theorem run_random_index_past_last_entry :
  let feed := [ {| links := [ {| href := "http://twit.tv/twig0001.mp3" |} ] |} ] in
  let env := surroundings 0 "" feed 1 3 in
  randint env 0 (Z.of_nat (List.length feed)) booted = (Ok 1, booted)
  ∧ ∃ w', run env podcast_action "podcast random twig" booted
          = (Raise IndexError, w')
      ∧ player_calls (trace w') = [].
Proof.
  split; [reflexivity|].
  eexists; (split; [vm_compute; reflexivity|]); by vm_compute.
Qed.

End podcast.

(** ** VolumeControl.run *)

(** C6, at two failing inputs. When the volume query exits with status 1,
    [run] raises CalledProcessError and logs nothing. When the query prints
    50 and the set command exits with status 1, [run] still says "Volume at
    60 %." and logs no error. *)
Theorem VolumeControl_command_failure_not_swallowed :
  (∃ w', run (surroundings 1 "" [] 0 0) {| VolumeControl.change := 10 |}
           "volume up" fresh = (Raise (CalledProcessError 1), w')
     ∧ logged EXCEPTION (trace w') = [])
  ∧ (∃ w', run {| now := {| hour := 0; minute := 0 |};
                  shell := fun cmd =>
                    if String.eqb cmd VolumeControl.GET_VOLUME
                    then (0, "50") else (1, "");
                  parse := fun _ => []; draw := 0; engine_state := 0 |}
             {| VolumeControl.change := 10 |} "volume up" fresh = (Ok tt, w')
       ∧ commands (trace w')
         = [VolumeControl.GET_VOLUME; "amixer -q set Master 60%"]
       ∧ said (trace w') = ["Volume at 60 %."]
       ∧ logged EXCEPTION (trace w') = []).
Proof.
  split; eexists; (split; [vm_compute; reflexivity|]); by vm_compute.
Qed.

(** The part of C6 that the code does keep: output that is not an integer
    is logged and swallowed, nothing is said and no volume is set. *)
Lemma VolumeControl_parse_failure_swallowed
    (env : Env) (self : VolumeControl.t) (voice_command output : string)
    (w : World) :
  shell env VolumeControl.GET_VOLUME = (0, output) →
  Py.int (Py.strip output) = Raise ValueError →
  ∃ w', run env self voice_command w = (Ok tt, w')
    ∧ said (trace w') = said (trace w)
    ∧ commands (trace w') = commands (trace w) ++ [VolumeControl.GET_VOLUME]
    ∧ logged EXCEPTION (trace w')
      = logged EXCEPTION (trace w) ++ ["Error using amixer to adjust volume."].
Proof.
  intros Hshell Hint.
  unfold run, VolumeControl_Action, VolumeControl.run, check_output, call,
    try_except, lift, say, logging, emit, raise, mbind, M_bind, mret, M_ret,
    get_world, put_world.
  simpl. rewrite Hshell. simpl. rewrite Hint. simpl.
  eexists. split; [reflexivity|]. by observations.
Qed.

(** * Further properties of the actions *)

(** Unfolds the statement monad down to functions on worlds. *)
Ltac statements :=
  unfold check_output, call, randint, try_except, lift, say, logging, emit,
    raise, mbind, M_bind, mret, M_ret, get_world, put_world;
  simpl.

(** ** VolumeControl.run, continued *)

Section volume.

Import VolumeControl.



(** When the query exits with a non-zero status, [run] raises
    CalledProcessError with that status: the set command is never run,
    nothing is said and nothing is logged. *)
Theorem VolumeControl_query_failure_raises
    (env : Env) (self : t) (voice_command output : string) (status : Z)
    (w : World) :
  shell env GET_VOLUME = (status, output) →
  status ≠ 0 →
  ∃ w', run env self voice_command w = (Raise (CalledProcessError status), w')
    ∧ trace w' = trace w ++ [Subprocess GET_VOLUME].
Proof.
  intros Hshell Hstatus.
  unfold run, VolumeControl_Action, VolumeControl.run. statements.
  rewrite Hshell. apply Z.eqb_neq in Hstatus as ->.
  by eexists.
Qed.

Lemma VolumeControl_query_failure_raises_witness :
  ∃ w', run (surroundings 127 "" [] 0 0) {| change := -10 |} "volume down"
          fresh = (Raise (CalledProcessError 127), w')
    ∧ trace w' = [Subprocess GET_VOLUME].
Proof.
  by apply (VolumeControl_query_failure_raises (surroundings 127 "" [] 0 0)
              {| change := -10 |} "volume down" "" 127 fresh).
Defined.

(** Whatever the commands answer, [run] executes the query first and at
    most one more command, which sets a volume between 0 and 100; it says
    at most one text. *)
Theorem VolumeControl_never_sets_volume_out_of_range
    (env : Env) (self : t) (voice_command : string) (w : World) :
  let w' := (run env self voice_command w).2 in
  (commands (trace w') = commands (trace w) ++ [GET_VOLUME]
   ∧ said (trace w') = said (trace w))
  ∨ ∃ vol, 0 <= vol <= 100
      ∧ commands (trace w')
        = commands (trace w) ++ [GET_VOLUME; SET_VOLUME vol]
      ∧ said (trace w')
        = said (trace w) ++ ["Volume at " +:+ Py.str vol +:+ " %."].
Proof.
  unfold run, VolumeControl_Action, VolumeControl.run. statements.
  destruct (shell env GET_VOLUME) as [status output] eqn:Hshell.
  destruct (Z.eqb_spec status 0) as [->|Hstatus]; simpl.
  - destruct (Py.int (Py.strip output)) as [n|e] eqn:Hint; simpl.
    + right. exists (Z.max 0 (Z.min 100 (n + change self))).
      split; [lia|]. observations. by rewrite <- !(assoc_L (++)).
    + left. destruct e; by observations.
  - left. by observations.
Qed.

End volume.

(** ** PowerCommand.run, continued *)

(** For "shutdown" and "reboot" [run] first speaks and then executes the
    one matching shutdown command; it returns normally whatever the exit
    status of that command. No other command string makes [run] execute
    anything. *)
Theorem PowerCommand_speaks_then_executes
    (env : Env) (self : PowerCommand.t) (voice_command : string) (w : World) :
  ∃ w', run env self voice_command w = (Ok tt, w')
    ∧ ((PowerCommand.command self = "shutdown"
        ∧ trace w' = trace w ++ [Say "Shutting down, goodbye";
                                 Subprocess "sudo shutdown now"])
       ∨ (PowerCommand.command self = "reboot"
          ∧ trace w' = trace w ++ [Say "Rebooting";
                                   Subprocess "sudo shutdown -r now"])
       ∨ (PowerCommand.command self ≠ "shutdown"
          ∧ PowerCommand.command self ≠ "reboot"
          ∧ commands (trace w') = commands (trace w))).
Proof.
  unfold run, PowerCommand_Action, PowerCommand.run.
  destruct (String.eqb_spec (PowerCommand.command self) "shutdown") as [Hs|Hs].
  - eexists. split; [reflexivity|]. left. split; [done|].
    simpl. by rewrite <- (assoc_L (++)).
  - destruct (String.eqb_spec (PowerCommand.command self) "reboot") as [Hr|Hr].
    + eexists. split; [reflexivity|]. right; left. split; [done|].
      simpl. by rewrite <- (assoc_L (++)).
    + eexists. split; [reflexivity|]. right; right.
      split_and!; [done|done|]. by observations.
Qed.

(** ** SpeakShellCommandOutput.run *)

Section shell_output.

Import SpeakShellCommandOutput.



(** When the command exits with a non-zero status, [run] raises
    CalledProcessError with that status and says nothing, the failure text
    included. *)
Theorem SpeakShellCommandOutput_command_failure_raises
    (env : Env) (self : t) (voice_command output : string) (status : Z)
    (w : World) :
  shell env (shell_command self) = (status, output) →
  status ≠ 0 →
  ∃ w', run env self voice_command w = (Raise (CalledProcessError status), w')
    ∧ said (trace w') = said (trace w).
Proof.
  intros Hshell Hstatus.
  unfold run, SpeakShellCommandOutput_Action, SpeakShellCommandOutput.run.
  statements. rewrite Hshell. apply Z.eqb_neq in Hstatus as ->.
  eexists. split; [reflexivity|]. by observations.
Qed.

Lemma SpeakShellCommandOutput_command_failure_raises_witness :
  ∃ w', run (surroundings 2 "" [] 0 0)
          {| shell_command := "ip -4 route get 1 | head -1 | cut -d' ' -f8";
             failure_text := "I do not have an ip address assigned to me." |}
          "ip address" fresh = (Raise (CalledProcessError 2), w')
    ∧ said (trace w') = [].
Proof.
  by apply (SpeakShellCommandOutput_command_failure_raises
              (surroundings 2 "" [] 0 0)
              {| shell_command := "ip -4 route get 1 | head -1 | cut -d' ' -f8";
                 failure_text := "I do not have an ip address assigned to me." |}
              "ip address" "" 2 fresh).
Defined.

End shell_output.

(** ** SpeakTime, continued *)

Section speak_time.

Import SpeakTime.

Lemma to_str_by_named_hour (h m : Z) :
  to_str {| hour := h; minute := m |} =
    if units m =? 0 then
      if named_hour h m =? 0 then Ok "It is midnight."
      else hw ← Py.getitem HRS_TEXT (named_hour h m);
           Ok ("It is " +:+ hw +:+ " o'clock.")
    else
      u ← Py.getitem MINS_TEXT (units m - 1);
      hw ← Py.getitem HRS_TEXT (named_hour h m);
      Ok ("It is " +:+ u +:+ (if inverted m then " to " else " past ")
          +:+ hw +:+ ".").
Proof.
  unfold to_str, units, named_hour, inverted, rounded. simpl.
  rewrite !Z.gtb_ltb. by destruct (6 <? (m + 2) `div` 5).
Qed.

Lemma to_str_defined (h m : Z) :
  0 <= h <= 23 → 0 <= m <= 59 →
  ∃ s, to_str {| hour := h; minute := m |} = Ok s.
Proof.
  intros Hh Hm. rewrite to_str_by_named_hour.
  pose proof (units_range m Hm). pose proof (named_hour_range h m Hh).
  destruct (getitem_in_range HRS_TEXT (named_hour h m)) as (hw & _ & ->);
    [simpl; lia|].
  destruct (Z.eqb_spec (units m) 0).
  - destruct (named_hour h m =? 0); by eexists.
  - destruct (getitem_in_range MINS_TEXT (units m - 1)) as (u & _ & ->);
      [simpl; lia|].
    by eexists.
Qed.

(** The phrase does not tell the afternoon from the morning: for the hours
    1 to 10 and every minute, the time twelve hours later reads the same.
    (Hours 0 and 11 differ from 12 and 23, where "midnight" and "twelve"
    are told apart.) *)
Theorem to_str_twelve_hours_later (h m : Z) :
  1 <= h <= 10 → 0 <= m <= 59 →
  to_str {| hour := h + 12; minute := m |} = to_str {| hour := h; minute := m |}.
Proof.
  intros Hh Hm. rewrite !to_str_by_named_hour.
  assert (named_hour (h + 12) m = named_hour h m) as ->; [|done].
  unfold named_hour. destruct (inverted m).
  - rewrite !Z.mod_small by lia.
    destruct (Z.ltb_spec 12 (h + 12 + 1)), (Z.ltb_spec 12 (h + 1)); lia.
  - destruct (Z.ltb_spec 12 (h + 12)), (Z.ltb_spec 12 h); lia.
Qed.

Lemma to_str_twelve_hours_later_witness :
  to_str {| hour := 16; minute := 20 |} = Ok "It is twenty past four."
  ∧ to_str {| hour := 4 + 12; minute := 20 |}
    = to_str {| hour := 4; minute := 20 |}.
Proof.
  split; [reflexivity|]. apply (to_str_twelve_hours_later 4 20); lia.
Defined.



(** For every clock reading with an hour in 0..23 and a minute in 0..59,
    [SpeakTime.run] returns normally and says exactly one text, the phrase
    that [to_str] gives for the reading. *)
Theorem SpeakTime_run_says_the_phrase
    (env : Env) (voice_command : string) (w : World) :
  0 <= hour (now env) <= 23 → 0 <= minute (now env) <= 59 →
  ∃ s, to_str (now env) = Ok s
    ∧ SpeakTime_run env voice_command w = (Ok tt, observe (Say s) w).
Proof.
  intros Hh Hm. destruct (now env) as [h m] eqn:Hnow. simpl in Hh, Hm.
  destruct (to_str_defined h m Hh Hm) as [s Hs]. exists s. split; [done|].
  unfold SpeakTime_run. statements. by rewrite Hnow, Hs.
Qed.

Lemma SpeakTime_run_says_the_phrase_witness :
  SpeakTime_run (surroundings 0 "" [] 0 0) "what time is it" fresh
  = (Ok tt, observe (Say "It is midnight.") fresh).
Proof.
  destruct (SpeakTime_run_says_the_phrase (surroundings 0 "" [] 0 0)
              "what time is it" fresh) as (s & Hs & Hrun);
    [simpl; lia | simpl; lia |].
  injection Hs as <-. exact Hrun.
Defined.

End speak_time.

(** ** playPodcast: the stop, pause and resume commands *)

Section podcast_commands.

Import playPodcast.

(** Unfolds [run] down to the branch taken for a given command. *)
Ltac run_branch self voice_command H :=
  unfold run, playPodcast_Action, playPodcast.run, stop, player, set_state;
  fold (command_of self voice_command); rewrite H; statements.

(** "stop" and "off", in any case and with white space around, stop the
    player with exactly one call and leave the state at "stopped"; nothing
    is said and [podcast_url] is kept. *)
Theorem run_stop_stops_player
    (env : Env) (self : t) (voice_command : string) (w : World)
    (p : MediaPlayer) :
  command_of self voice_command = "stop" ∨ command_of self voice_command = "off" →
  podcastPlayer w = Some p →
  ∃ w', run env self voice_command w = (Ok tt, w')
    ∧ player_calls (trace w') = player_calls (trace w) ++ [Stop]
    ∧ podcastState w' = Some "stopped"
    ∧ said (trace w') = said (trace w)
    ∧ podcast_url w' = podcast_url w.
Proof.
  intros [Hc|Hc] Hp; run_branch self voice_command Hc; rewrite Hp; simpl;
    (eexists; split; [reflexivity|]); by observations.
Qed.

Lemma run_stop_stops_player_witness :
  ∃ w', run (surroundings 0 "" [] 0 0) podcast_action "  Podcast OFF " booted
        = (Ok tt, w')
    ∧ player_calls (trace w') = [Stop]
    ∧ podcastState w' = Some "stopped".
Proof.
  destruct (run_stop_stops_player (surroundings 0 "" [] 0 0) podcast_action
              "  Podcast OFF " booted media_player_new)
    as (w' & Hrun & Hcalls & Hstate & _); [by right | done |].
  by exists w'.
Defined.

(** Without a bound [podcastPlayer], "stop" raises NameError out of [run]
    and the globals stay as they were. *)
Theorem run_stop_without_player_raises
    (env : Env) (self : t) (voice_command : string) (w : World) :
  command_of self voice_command = "stop" ∨ command_of self voice_command = "off" →
  podcastPlayer w = None →
  ∃ w', run env self voice_command w = (Raise (NameError "podcastPlayer"), w')
    ∧ same_globals w w'
    ∧ player_calls (trace w') = player_calls (trace w).
Proof.
  intros [Hc|Hc] Hp; run_branch self voice_command Hc; rewrite Hp; simpl;
    (eexists; split; [reflexivity|]); (split; [done|]); by observations.
Qed.

Lemma run_stop_without_player_raises_witness :
  ∃ w', run (surroundings 0 "" [] 0 0) podcast_action "podcast stop" fresh
        = (Raise (NameError "podcastPlayer"), w')
    ∧ podcastState w' = None.
Proof.
  destruct (run_stop_without_player_raises (surroundings 0 "" [] 0 0)
              podcast_action "podcast stop" fresh)
    as (w' & Hrun & (_ & Hstate & _) & _); [by left | done |].
  by exists w'.
Defined.

(** The exact effect of the two hooks on a world whose state is bound. *)
Lemma pause_bound (w : World) (st : string) :
  podcastState w = Some st →
  pause w =
    let w1 := observe (Log INFO ("pausing podcast state is " +:+ st)) w in
    if String.eqb st "playing" then
      match podcastPlayer w with
      | Some _ => (Ok tt, observe (Player Pause) w1)
      | None => (Ok tt, w1)
      end
    else (Ok tt, w1).
Proof.
  intros Hst. unfold pause, get_state, player. statements. rewrite Hst.
  destruct (String.eqb st "playing"); [|done].
  destruct (podcastPlayer w) eqn:Hp; unfold observe; simpl; by rewrite Hp.
Qed.

Lemma resume_bound (w : World) (st : string) :
  podcastState w = Some st →
  resume w =
    let w1 := observe (Log INFO ("resume podcast state is " +:+ st)) w in
    if String.eqb st "playing" then
      match podcastPlayer w with
      | Some _ => (Ok tt, observe (Player Play) w1)
      | None => (Raise (NameError "podcastPlayer"), w1)
      end
    else (Ok tt, w1).
Proof.
  intros Hst. unfold resume, get_state, player. statements. rewrite Hst.
  destruct (String.eqb st "playing"); [|done].
  destruct (podcastPlayer w) eqn:Hp; unfold observe; simpl; by rewrite Hp.
Qed.

(** "pause" only records the state "paused": it returns normally in every
    world, calls no player method and says nothing. The resume hook that
    follows finds the state "paused" and calls no player method either. *)
Theorem run_pause_only_sets_state
    (env : Env) (self : t) (voice_command : string) (w : World) :
  command_of self voice_command = "pause" →
  ∃ w', run env self voice_command w = (Ok tt, w')
    ∧ podcastState w' = Some "paused"
    ∧ player_calls (trace w') = player_calls (trace w)
    ∧ said (trace w') = said (trace w)
    ∧ (resumeActors w').1 = Ok tt
    ∧ player_calls (trace (resumeActors w').2) = player_calls (trace w).
Proof.
  intros Hc. run_branch self voice_command Hc.
  eexists. split; [reflexivity|].
  unfold resumeActors. rewrite (resume_bound _ "paused") by done.
  by observations.
Qed.

Lemma run_pause_only_sets_state_witness :
  ∃ w', run (surroundings 0 "" [] 0 0) podcast_action "podcast pause" booted
        = (Ok tt, w')
    ∧ podcastState w' = Some "paused"
    ∧ player_calls (trace (resumeActors w').2) = [].
Proof.
  destruct (run_pause_only_sets_state (surroundings 0 "" [] 0 0)
              podcast_action "podcast pause" booted eq_refl)
    as (w' & Hrun & Hstate & _ & _ & _ & Hcalls).
  by exists w'.
Defined.

(** "resume" calls play and sets the state to "playing" whatever the state
    was, also when it was "stopped" or "playing" already. *)
Theorem run_resume_plays
    (env : Env) (self : t) (voice_command : string) (w : World)
    (p : MediaPlayer) :
  command_of self voice_command = "resume" →
  podcastPlayer w = Some p →
  ∃ w', run env self voice_command w = (Ok tt, w')
    ∧ player_calls (trace w') = player_calls (trace w) ++ [Play]
    ∧ podcastState w' = Some "playing"
    ∧ said (trace w') = said (trace w).
Proof.
  intros Hc Hp. run_branch self voice_command Hc. rewrite Hp. simpl.
  eexists. split; [reflexivity|]. by observations.
Qed.

Lemma run_resume_plays_witness :
  ∃ w', run (surroundings 0 "" [] 0 0) podcast_action "Podcast Resume" booted
        = (Ok tt, w')
    ∧ player_calls (trace w') = [Play]
    ∧ podcastState w' = Some "playing".
Proof.
  destruct (run_resume_plays (surroundings 0 "" [] 0 0) podcast_action
              "Podcast Resume" booted media_player_new eq_refl eq_refl)
    as (w' & Hrun & Hcalls & Hstate & _).
  by exists w'.
Defined.

(** Without a bound [podcastPlayer], "resume" swallows the NameError: [run]
    returns normally, logs "error resuming" and leaves the globals as they
    were. *)
Theorem run_resume_without_player_is_swallowed
    (env : Env) (self : t) (voice_command : string) (w : World) :
  command_of self voice_command = "resume" →
  podcastPlayer w = None →
  ∃ w', run env self voice_command w = (Ok tt, w')
    ∧ same_globals w w'
    ∧ logged INFO (trace w')
      = logged INFO (trace w)
        ++ ["podcast command:resume"; "podcast resuming"; "error resuming"]
    ∧ player_calls (trace w') = player_calls (trace w).
Proof.
  intros Hc Hp. run_branch self voice_command Hc. rewrite Hp. simpl.
  eexists. split; [reflexivity|]. split; [done|].
  observations. by rewrite <- !(assoc_L (++)).
Qed.

Lemma run_resume_without_player_is_swallowed_witness :
  ∃ w', run (surroundings 0 "" [] 0 0) podcast_action "podcast resume" fresh
        = (Ok tt, w')
    ∧ podcastState w' = None
    ∧ player_calls (trace w') = [].
Proof.
  destruct (run_resume_without_player_is_swallowed (surroundings 0 "" [] 0 0)
              podcast_action "podcast resume" fresh eq_refl eq_refl)
    as (w' & Hrun & (_ & Hstate & _) & _ & Hcalls).
  by exists w'.
Defined.

End podcast_commands.

(** ** playPodcast: playing a podcast *)

Section podcast_start.

Import playPodcast.


Lemma for_link_first (e : Entry) (l : Link) (w : World) :
  first_mp3 e l → for_link (links e) w = set_podcast_url (Some (href l)) w.
Proof.
  intros (before & after & -> & Hbefore & Hl).
  induction Hbefore as [|x ls Hx _ IH]; simpl.
  - by rewrite Hl.
  - by rewrite Hx.
Qed.


Lemma getitem_raises_IndexError {A : Type} (l : list A) (i : Z) (e : Exn) :
  Py.getitem l i = Raise e → e = IndexError.
Proof.
  unfold Py.getitem.
  destruct (_ && _); [destruct (l !! _)|]; congruence.
Qed.

Lemma randint_episode_number (env : Env) (entries : list Entry) (w : World) :
  randint env 0 (Z.of_nat (List.length entries)) w
  = (Ok (episode_number env true entries), w).
Proof.
  unfold randint, episode_number.
  destruct (Z.ltb_spec (Z.of_nat (List.length entries)) 0); [lia|].
  by rewrite Z.sub_0_r, Z.add_0_l.
Qed.

(** Runs [start] for a known name up to the episode lookup. *)
Ltac start_known Hu rnd :=
  unfold start, get_url, set_state, set_podcast_url, get_podcast_url, concat,
    player;
  unfold try_except, lift, say, logging, emit, raise, mbind, M_bind, mret,
    M_ret, get_world, put_world;
  rewrite Hu; cbn beta iota;
  destruct rnd; [rewrite randint_episode_number|];
  unfold episode_number in *.

Lemma start_plays (env : Env) (rnd : bool) (name u : string) (w : World)
    (e : Entry) (l : Link) :
  urls !! name = Some u →
  is_Some (podcastPlayer w) →
  Py.getitem (parse env u) (episode_number env rnd (parse env u)) = Ok e →
  first_mp3 e l →
  engine_state env ∈ playing →
  ∃ w', start env rnd name w = (Ok tt, w')
    ∧ player_calls (trace w')
      = player_calls (trace w) ++ [SetMedia (Some (href l)); Play; GetState]
    ∧ podcastState w' = Some "playing"
    ∧ podcast_url w' = Some (Some (href l))
    ∧ podcastPlayer w' = podcastPlayer w
    ∧ said (trace w') = said (trace w).
Proof.
  intros Hu [p Hp] Hget Hfirst Hcode.
  assert (bool_decide (engine_state env ∉ playing) = false) as Hdec
    by (apply bool_decide_eq_false; tauto).
  start_known Hu rnd; rewrite Hget; cbn beta iota;
    rewrite (for_link_first e l _ Hfirst); unfold set_podcast_url;
    unfold mbind, M_bind, get_world, put_world; simpl;
    rewrite Hp; simpl; rewrite Hdec; simpl;
    (eexists; split; [reflexivity|]); observations;
    by rewrite <- !(assoc_L (++)).
Qed.

Lemma start_engine_failure (env : Env) (rnd : bool) (name u : string)
    (w : World) (e : Entry) (l : Link) :
  urls !! name = Some u →
  is_Some (podcastPlayer w) →
  Py.getitem (parse env u) (episode_number env rnd (parse env u)) = Ok e →
  first_mp3 e l →
  engine_state env ∉ playing →
  ∃ w', start env rnd name w = (Raise (NameError "podcast"), w')
    ∧ player_calls (trace w')
      = player_calls (trace w) ++ [SetMedia (Some (href l)); Play; GetState]
    ∧ podcastState w' = Some "starting"
    ∧ podcast_url w' = Some (Some (href l))
    ∧ podcastPlayer w' = podcastPlayer w
    ∧ said (trace w') = said (trace w).
Proof.
  intros Hu [p Hp] Hget Hfirst Hcode.
  assert (bool_decide (engine_state env ∉ playing) = true) as Hdec
    by by apply bool_decide_eq_true.
  start_known Hu rnd; rewrite Hget; cbn beta iota;
    rewrite (for_link_first e l _ Hfirst); unfold set_podcast_url;
    unfold mbind, M_bind, get_world, put_world; simpl;
    rewrite Hp; simpl; rewrite Hdec; simpl;
    (eexists; split; [reflexivity|]); observations;
    by rewrite <- !(assoc_L (++)).
Qed.


Lemma start_no_entry (env : Env) (rnd : bool) (name u : string) (w : World)
    (x : Exn) :
  urls !! name = Some u →
  Py.getitem (parse env u) (episode_number env rnd (parse env u)) = Raise x →
  ∃ w', start env rnd name w = (Raise IndexError, w')
    ∧ player_calls (trace w') = player_calls (trace w)
    ∧ podcastState w' = Some "stopped"
    ∧ podcast_url w' = Some None
    ∧ podcastPlayer w' = podcastPlayer w
    ∧ said (trace w') = said (trace w).
Proof.
  intros Hu Hget.
  pose proof (getitem_raises_IndexError _ _ _ Hget) as ->.
  start_known Hu rnd; rewrite Hget; cbn beta iota;
    (eexists; split; [reflexivity|]); by observations.
Qed.


(** Every command that is not a control word goes to the lookup, in the
    mode and with the name that the command gives. *)
Lemma run_to_start (env : Env) (self : t) (voice_command : string)
    (w : World) :
  let c := command_of self voice_command in
  c ∉ controls →
  run env self voice_command w
  = start env (random_mode c) (podcast_name c)
      (observe (Log INFO ("podcast command:" +:+ c)) w).
Proof.
  intros c Hc.
  unfold run, playPodcast_Action, playPodcast.run.
  fold (command_of self voice_command). fold c.
  assert (∀ x, x ∈ controls → String.eqb c x = false) as Hneq.
  { intros x Hx. apply String.eqb_neq. by intros <-. }
  unfold controls in Hneq. rewrite !Hneq by set_solver. simpl.
  unfold mbind at 1, M_bind at 1, logging at 1, emit at 1.
  unfold mbind at 1, M_bind at 1, get_world at 1, put_world at 1.
  unfold podcast_name, random_mode. by destruct (Py.contains "random" c).
Qed.

(** No control word is the command of a catalogued podcast. *)
Lemma known_name_not_control (c u : string) :
  urls !! podcast_name c = Some u → c ∉ controls.
Proof.
  intros Hu Hc. unfold controls in Hc.
  repeat (apply elem_of_cons in Hc as [->|Hc]);
    [by vm_compute in Hu..|by apply elem_of_nil in Hc].
Qed.

(** For a catalogued podcast whose looked-up episode has an mp3 link and
    whose engine reports one of the codes 1..4 after play, [run] loads the
    first link of the episode that contains ".mp3", later ones being
    ignored, calls play, and returns in state "playing" without saying
    anything. *)
Theorem run_plays_first_mp3_link
    (env : Env) (self : t) (voice_command u : string) (w : World)
    (e : Entry) (l : Link) :
  let c := command_of self voice_command in
  urls !! podcast_name c = Some u →
  is_Some (podcastPlayer w) →
  Py.getitem (parse env u) (episode_number env (random_mode c) (parse env u))
  = Ok e →
  first_mp3 e l →
  engine_state env ∈ playing →
  ∃ w', run env self voice_command w = (Ok tt, w')
    ∧ player_calls (trace w')
      = player_calls (trace w) ++ [SetMedia (Some (href l)); Play; GetState]
    ∧ podcastState w' = Some "playing"
    ∧ podcast_url w' = Some (Some (href l))
    ∧ said (trace w') = said (trace w).
Proof.
  intros c Hu Hp Hget Hfirst Hcode.
  rewrite run_to_start by by eapply known_name_not_control.
  destruct (start_plays env (random_mode c) (podcast_name c) u
              (observe (Log INFO ("podcast command:" +:+ c)) w) e l)
    as (w' & Hrun & Hcalls & Hstate & Hurl & _ & Hsaid); [done..|].
  exists w'. split_and!; [done| |done|done|].
  - rewrite Hcalls. by observations.
  - rewrite Hsaid. by observations.
Qed.

Lemma run_plays_first_mp3_link_witness :
  ∃ w', run (surroundings 0 ""
               [ {| links := [ {| href := "http://twit.tv/twig.html" |};
                               {| href := "http://twit.tv/twig0002.mp3" |};
                               {| href := "http://twit.tv/twig0002-hd.mp3" |} ] |};
                 {| links := [ {| href := "http://twit.tv/twig0001.mp3" |} ] |} ]
               0 3)
          podcast_action "Podcast TWIG" booted = (Ok tt, w')
    ∧ player_calls (trace w')
      = [SetMedia (Some "http://twit.tv/twig0002.mp3"); Play; GetState]
    ∧ podcastState w' = Some "playing".
Proof.
  destruct (run_plays_first_mp3_link
              (surroundings 0 ""
                 [ {| links := [ {| href := "http://twit.tv/twig.html" |};
                                 {| href := "http://twit.tv/twig0002.mp3" |};
                                 {| href := "http://twit.tv/twig0002-hd.mp3" |} ] |};
                   {| links := [ {| href := "http://twit.tv/twig0001.mp3" |} ] |} ]
                 0 3)
              podcast_action "Podcast TWIG" "http://feeds.twit.tv/twig.xml"
              booted
              {| links := [ {| href := "http://twit.tv/twig.html" |};
                            {| href := "http://twit.tv/twig0002.mp3" |};
                            {| href := "http://twit.tv/twig0002-hd.mp3" |} ] |}
              {| href := "http://twit.tv/twig0002.mp3" |})
    as (w' & Hrun & Hcalls & Hstate & _).
  - vm_compute; reflexivity.
  - by eexists.
  - vm_compute; reflexivity.
  - exists [ {| href := "http://twit.tv/twig.html" |} ],
      [ {| href := "http://twit.tv/twig0002-hd.mp3" |} ].
    split_and!; [done| |done]. by repeat constructor.
  - apply (bool_decide_unpack _). vm_compute. exact I.
  - by exists w'.
Defined.

(** The same call when the engine reports any other code: [run] raises
    NameError for the name [podcast] after the player was started; nothing
    is said and the state is left at "starting". *)
Theorem run_unexpected_engine_state_raises
    (env : Env) (self : t) (voice_command u : string) (w : World)
    (e : Entry) (l : Link) :
  let c := command_of self voice_command in
  urls !! podcast_name c = Some u →
  is_Some (podcastPlayer w) →
  Py.getitem (parse env u) (episode_number env (random_mode c) (parse env u))
  = Ok e →
  first_mp3 e l →
  engine_state env ∉ playing →
  ∃ w', run env self voice_command w = (Raise (NameError "podcast"), w')
    ∧ player_calls (trace w')
      = player_calls (trace w) ++ [SetMedia (Some (href l)); Play; GetState]
    ∧ podcastState w' = Some "starting"
    ∧ said (trace w') = said (trace w).
Proof.
  intros c Hu Hp Hget Hfirst Hcode.
  rewrite run_to_start by by eapply known_name_not_control.
  destruct (start_engine_failure env (random_mode c) (podcast_name c) u
              (observe (Log INFO ("podcast command:" +:+ c)) w) e l)
    as (w' & Hrun & Hcalls & Hstate & _ & _ & Hsaid); [done..|].
  exists w'. split_and!; [done| |done|].
  - rewrite Hcalls. by observations.
  - rewrite Hsaid. by observations.
Qed.

Lemma run_unexpected_engine_state_raises_witness :
  ∃ w', run (surroundings 0 ""
               [ {| links := [ {| href := "http://twit.tv/twig0002.mp3" |} ] |} ]
               0 6)
          podcast_action "podcast twig" booted
        = (Raise (NameError "podcast"), w')
    ∧ podcastState w' = Some "starting"
    ∧ said (trace w') = [].
Proof.
  destruct (run_unexpected_engine_state_raises
              (surroundings 0 ""
                 [ {| links := [ {| href := "http://twit.tv/twig0002.mp3" |} ] |} ]
                 0 6)
              podcast_action "podcast twig" "http://feeds.twit.tv/twig.xml"
              booted
              {| links := [ {| href := "http://twit.tv/twig0002.mp3" |} ] |}
              {| href := "http://twit.tv/twig0002.mp3" |})
    as (w' & Hrun & _ & Hstate & Hsaid).
  - vm_compute; reflexivity.
  - by eexists.
  - vm_compute; reflexivity.
  - exists [], []. by split_and!.
  - apply (bool_decide_unpack _). vm_compute. exact I.
  - by exists w'.
Defined.



(** For a catalogued podcast, when the episode number is not below the
    number of entries of the feed, [run] raises IndexError before any
    player call and says nothing. This is so for every empty feed, and in
    random mode whenever [randint] returns its upper bound. *)
Theorem run_episode_out_of_range_raises_IndexError
    (env : Env) (self : t) (voice_command u : string) (w : World) :
  let c := command_of self voice_command in
  urls !! podcast_name c = Some u →
  Z.of_nat (List.length (parse env u))
  <= episode_number env (random_mode c) (parse env u) →
  ∃ w', run env self voice_command w = (Raise IndexError, w')
    ∧ player_calls (trace w') = player_calls (trace w)
    ∧ podcastState w' = Some "stopped"
    ∧ said (trace w') = said (trace w).
Proof.
  intros c Hu Hlen.
  rewrite run_to_start by by eapply known_name_not_control.
  destruct (start_no_entry env (random_mode c) (podcast_name c) u
              (observe (Log INFO ("podcast command:" +:+ c)) w) IndexError)
    as (w' & Hrun & Hcalls & Hstate & _ & _ & Hsaid);
    [done | by apply getitem_past_end |].
  exists w'. split_and!; [done| |done|].
  - rewrite Hcalls. by observations.
  - rewrite Hsaid. by observations.
Qed.

Lemma run_episode_out_of_range_raises_IndexError_witness :
  ∃ w', run (surroundings 0 ""
               [ {| links := [ {| href := "http://twit.tv/a.mp3" |} ] |};
                 {| links := [ {| href := "http://twit.tv/b.mp3" |} ] |} ]
               8 3)
          podcast_action "podcast random tech news today" booted
        = (Raise IndexError, w')
    ∧ player_calls (trace w') = [].
Proof.
  destruct (run_episode_out_of_range_raises_IndexError
              (surroundings 0 ""
                 [ {| links := [ {| href := "http://twit.tv/a.mp3" |} ] |};
                   {| links := [ {| href := "http://twit.tv/b.mp3" |} ] |} ]
                 8 3)
              podcast_action "podcast random tech news today"
              "http://feeds.twit.tv/tnt.xml" booted)
    as (w' & Hrun & Hcalls & _).
  - vm_compute; reflexivity.
  - vm_compute. discriminate.
  - by exists w'.
Defined.

End podcast_start.

(** ** playPodcast: what every call keeps *)

Section podcast_invariants.

Import playPodcast.

(** The two hooks never assign a global and never speak, whatever the
    world and whether they return or raise. *)
Theorem hooks_keep_globals (w : World) :
  same_globals w (pauseActors w).2
  ∧ same_globals w (resumeActors w).2
  ∧ said (trace (pauseActors w).2) = said (trace w)
  ∧ said (trace (resumeActors w).2) = said (trace w).
Proof.
  unfold pauseActors, resumeActors.
  destruct (podcastState w) as [st|] eqn:Hst.
  - rewrite (pause_bound w st Hst), (resume_bound w st Hst). simpl.
    destruct (String.eqb st "playing"), (podcastPlayer w);
      split_and!; by observations.
  - unfold pause, resume, get_state. statements. rewrite Hst.
    by split_and!.
Qed.

(** Before any [playPodcast] has been constructed the state is not bound,
    and both hooks raise NameError without any effect. *)
Theorem hooks_before_construction_raise (w : World) :
  podcastState w = None →
  pauseActors w = (Raise (NameError "podcastState"), w)
  ∧ resumeActors w = (Raise (NameError "podcastState"), w).
Proof.
  intros Hst. unfold pauseActors, resumeActors, pause, resume, get_state.
  statements. by rewrite Hst.
Qed.

Lemma hooks_before_construction_raise_witness :
  pauseActors fresh = (Raise (NameError "podcastState"), fresh)
  ∧ resumeActors fresh = (Raise (NameError "podcastState"), fresh).
Proof. by apply (hooks_before_construction_raise fresh). Defined.

(** The constructor binds the player and sets the state to "stopped" in
    every world, keeping [podcast_url]; after it both hooks return normally
    without a player call. *)
Theorem init_makes_ready (keyword : string) (w : World) :
  let w' := (init keyword w).2 in
  (init keyword w).1 = Ok {| playPodcast.keyword := keyword |}
  ∧ ready w'
  ∧ podcastState w' = Some "stopped"
  ∧ podcast_url w' = podcast_url w
  ∧ (pauseActors w').1 = Ok tt
  ∧ (resumeActors w').1 = Ok tt
  ∧ player_calls (trace (pauseActors w').2) = player_calls (trace w)
  ∧ player_calls (trace (resumeActors w').2) = player_calls (trace w).
Proof.
  unfold pauseActors, resumeActors, ready.
  rewrite (pause_bound _ "stopped"), (resume_bound _ "stopped")
    by reflexivity.
  simpl. split_and!; try done; by observations.
Qed.





(** In state "playing" with a bound player the hooks do act, and since
    they leave the state as it is they compose: the pause hook calls pause,
    the resume hook that follows calls play, and the state is still
    "playing" afterwards. *)
Theorem hooks_pause_then_resume_when_playing (w : World) :
  podcastState w = Some "playing" →
  is_Some (podcastPlayer w) →
  let w1 := (pauseActors w).2 in
  let w2 := (resumeActors w1).2 in
  (pauseActors w).1 = Ok tt
  ∧ (resumeActors w1).1 = Ok tt
  ∧ player_calls (trace w1) = player_calls (trace w) ++ [Pause]
  ∧ player_calls (trace w2) = player_calls (trace w) ++ [Pause; Play]
  ∧ podcastState w2 = Some "playing".
Proof.
  intros Hst [p Hp]. unfold pauseActors, resumeActors.
  rewrite (pause_bound w "playing" Hst). simpl. rewrite Hp.
  rewrite (resume_bound _ "playing") by done. simpl. rewrite Hp. simpl.
  split_and!; [done|done| | |done].
  - by observations.
  - observations. by rewrite <- !(assoc_L (++)).
Qed.

Lemma hooks_pause_then_resume_when_playing_witness :
  let w := (set_state "playing" booted).2 in
  player_calls (trace (resumeActors (pauseActors w).2).2) = [Pause; Play]
  ∧ podcastState (resumeActors (pauseActors w).2).2 = Some "playing".
Proof.
  intros w.
  destruct (hooks_pause_then_resume_when_playing w)
    as (_ & _ & _ & Hcalls & Hstate); [done | by eexists |].
  by split.
Defined.

End podcast_invariants.

(** ** VolumeControl.run on unparsable output *)

Lemma VolumeControl_parse_failure_swallowed_witness :
  ∃ w', run (surroundings 0 "" [] 0 0) {| VolumeControl.change := 10 |}
          "volume up" fresh = (Ok tt, w')
    ∧ said (trace w') = []
    ∧ commands (trace w') = [VolumeControl.GET_VOLUME]
    ∧ logged EXCEPTION (trace w') = ["Error using amixer to adjust volume."].
Proof.
  by apply (VolumeControl_parse_failure_swallowed (surroundings 0 "" [] 0 0)
              {| VolumeControl.change := 10 |} "volume up" "" fresh).
Defined.
